(** * nanobot session store

    A shallow embedding of [nanobot/session/manager.py]: the [Session]
    dataclass with its anchor-based history window, and the
    [SessionManager] that caches sessions and persists them as JSONL files.

    Python values are modelled as follows.
    - [str] is a list of Unicode code points ([list N]); a file opened in
      text mode with [encoding="utf-8"] is the text it decodes to.
    - The values [json.loads] produces and [json.dumps] accepts are the
      inductive type [json]; a Python [dict] is an association list in
      insertion order whose keys are pairwise distinct.  JSON numbers are
      Python integers ([Z]); floating-point literals are outside the model.
    - A raised exception is a value of type [exn] carried by [result].
    - Session objects live in a heap and are referred to by address, so
      that the cache and its clients can share one instance. *)

From Stdlib Require Import ZArith NArith List Ascii String Bool Lia Sorted.
From Stdlib Require Import Decimal DecimalFacts DecimalPos DecimalN DecimalZ.
From stdpp Require Import base option list gmap.
Import ListNotations.
Local Open Scope Z_scope.

(** ** Text *)

Abbreviation text := (list N).

Definition txt (s : string) : text := map N_of_ascii (list_ascii_of_string s).
Arguments txt : simpl never.

(** JSON text for examples, written with single quotes in place of double
    quotes. *)
Definition jtxt (s : string) : text :=
  map (fun c : N => if N.eqb c 39 then 34%N else c) (txt s).
Arguments jtxt : simpl never.

(** ** JSON values and Python dictionaries *)

Unset Elimination Schemes.
Inductive json : Type :=
| JNull
| JBool (b : bool)
| JInt (z : Z)
| JStr (s : text)
| JArr (items : list json)
| JObj (fields : list (text * json)).
Set Elimination Schemes.

Abbreviation dict := (list (text * json)).

Inductive exn : Type :=
| KeyError | TypeError | AttributeError | ValueError
| JSONDecodeError | UnicodeEncodeError.

Inductive result (A : Type) : Type :=
| Ok (a : A)
| Raise (e : exn).
Arguments Ok {A} a.
Arguments Raise {A} e.

Fixpoint traverse {A B : Type} (f : A -> result B) (l : list A) : result (list B) :=
  match l with
  | [] => Ok []
  | x :: l' =>
      match f x with
      | Raise e => Raise e
      | Ok y =>
          match traverse f l' with
          | Raise e => Raise e
          | Ok ys => Ok (y :: ys)
          end
      end
  end.

(** [k in d] and [d[k]]: the value bound to [k], if any. *)
Fixpoint dict_get (k : text) (d : dict) : option json :=
  match d with
  | [] => None
  | (k', v) :: d' => if bool_decide (k' = k) then Some v else dict_get k d'
  end.

(** [d[k] = v]: an existing key keeps its position, a new key goes last. *)
Fixpoint dict_set (k : text) (v : json) (d : dict) : dict :=
  match d with
  | [] => [(k, v)]
  | (k', v') :: d' =>
      if bool_decide (k' = k) then (k, v) :: d' else (k', v') :: dict_set k v d'
  end.

(** [{**d, **extra}]. *)
Definition dict_update (d extra : dict) : dict :=
  fold_left (fun acc kv => dict_set (fst kv) (snd kv) acc) extra d.

(** [d.get(k)], with [None] for a missing key. *)
Definition py_get (k : text) (d : dict) : json := default JNull (dict_get k d).

(** [d.get(k, dflt)]. *)
Definition py_get_default (k : text) (dflt : json) (d : dict) : json :=
  default dflt (dict_get k d).

(** Python truth value of a JSON value ([bool(v)]). *)
Definition truthy (v : json) : bool :=
  match v with
  | JNull => false
  | JBool b => b
  | JInt z => negb (z =? 0)
  | JStr s => match s with [] => false | _ => true end
  | JArr l => match l with [] => false | _ => true end
  | JObj f => match f with [] => false | _ => true end
  end.

(** [v == s] for a string literal [s]. *)
Definition is_str (v : json) (s : text) : bool :=
  match v with
  | JStr s' => bool_decide (s' = s)
  | _ => false
  end.

(** ** Session *)

(** A [datetime] is represented by the text [isoformat()] prints for it. *)
Record datetime : Type := { isoformat : text }.

(** The dataclass [Session].  [metadata] and [last_consolidated] hold
    whatever JSON value [_load] found in the file. *)
Record Session : Type := {
  key : text;
  messages : list dict;
  created_at : datetime;
  updated_at : datetime;
  metadata : json;
  last_consolidated : json
}.

(** [Session(key=key)]; the two default factories read the clock. *)
Definition new_session (k : text) (now_created now_updated : datetime) : Session :=
  {| key := k; messages := []; created_at := now_created;
     updated_at := now_updated; metadata := JObj []; last_consolidated := JInt 0 |}.

(** [Session.add_message]; [now_stamp] and [now_updated] are the two clock
    readings.  [kwargs] are the extra keyword arguments, merged last into
    the message (Python binds [role] and [content] to the parameters, so
    they never occur among them). *)
Definition add_message (now_stamp now_updated : datetime)
    (role content : text) (kwargs : dict) (self : Session) : Session :=
  let msg :=
    dict_update
      [(txt "role", JStr role); (txt "content", JStr content);
       (txt "timestamp", JStr (isoformat now_stamp))]
      kwargs in
  {| key := key self; messages := messages self ++ [msg];
     created_at := created_at self; updated_at := now_updated;
     metadata := metadata self; last_consolidated := last_consolidated self |}.

(** [Session._is_context_anchor]. *)
Definition _is_context_anchor (message : dict) : bool :=
  let role := py_get (txt "role") message in
  if is_str role (txt "user") then true
  else if negb (is_str role (txt "assistant")) then false
  else negb (truthy (py_get (txt "tool_calls") message)).

(** [sum(1 for m in l if _is_context_anchor(m))]. *)
Fixpoint count_anchors (l : list dict) : Z :=
  match l with
  | [] => 0
  | m :: l' => (if _is_context_anchor m then 1 else 0) + count_anchors l'
  end.


(** The first loop of [get_history]: walk the reversed log, append every
    message to [selected], and stop after the anchor that brings
    [anchors_seen] to [max_messages]. *)
Fixpoint scan_back (max_messages anchors_seen : Z) (rev_msgs : list dict) : list dict :=
  match rev_msgs with
  | [] => []
  | m :: rest =>
      if _is_context_anchor m then
        if anchors_seen + 1 >=? max_messages then [m]
        else m :: scan_back max_messages (anchors_seen + 1) rest
      else m :: scan_back max_messages anchors_seen rest
  end.

Definition history_keys : list text :=
  [txt "tool_calls"; txt "tool_call_id"; txt "name"; txt "reasoning_content"].

Definition copy_if_present (m : dict) (entry : dict) (k : text) : dict :=
  match dict_get k m with
  | Some v => dict_set k v entry
  | None => entry
  end.

(** The body of the second loop of [get_history]; [m["role"]] raises
    [KeyError] on a message without a role. *)
Definition history_entry (m : dict) : result dict :=
  match dict_get (txt "role") m with
  | None => Raise KeyError
  | Some r =>
      Ok (fold_left (copy_if_present m) history_keys
            [(txt "role", r);
             (txt "content", py_get_default (txt "content") (JStr []) m)])
  end.

(** The messages [get_history] selects, in chronological order. *)
Definition history_window (self : Session) (max_messages : Z) : list dict :=
  rev (scan_back max_messages 0 (rev (messages self))).

(** [Session.get_history]. *)
Definition get_history (self : Session) (max_messages : Z) : result (list dict) :=
  if max_messages <=? 0 then Ok []
  else traverse history_entry (history_window self max_messages).

(** [Session.clear]. *)
Definition clear (now : datetime) (self : Session) : Session :=
  {| key := key self; messages := []; created_at := created_at self;
     updated_at := now; metadata := metadata self; last_consolidated := JInt 0 |}.

(** ** Text helpers *)

Local Open Scope N_scope.

(** [s.strip()] removes the characters [str.isspace] accepts. *)
Definition is_py_space (c : N) : bool :=
  ((9 <=? c) && (c <=? 13)) || ((28 <=? c) && (c <=? 32)) ||
  (c =? 133) || (c =? 160) || (c =? 5760) ||
  ((8192 <=? c) && (c <=? 8202)) || (c =? 8232) || (c =? 8233) ||
  (c =? 8239) || (c =? 8287) || (c =? 12288).

Fixpoint lstrip (s : text) : text :=
  match s with
  | [] => []
  | c :: s' => if is_py_space c then lstrip s' else s
  end.

Definition py_strip (s : text) : text := rev (lstrip (rev (lstrip s))).

(** The lines of a file read in text mode (universal newlines: a line ends
    at LF, CR or CR LF), without their terminators.  The reader strips every
    line and skips empty ones, so terminators and a final empty line do not
    matter to it. *)
Fixpoint file_lines (s : text) : list text :=
  match s with
  | [] => [[]]
  | c :: s' =>
      if c =? 10 then [] :: file_lines s'
      else if c =? 13 then
        match s' with
        | d :: s'' => if d =? 10 then [] :: file_lines s'' else [] :: file_lines s'
        | [] => [[]; []]
        end
      else
        match file_lines s' with
        | l :: ls => (c :: l) :: ls
        | [] => [[c]]
        end
  end.

(** ["\\u" in line]: a backslash directly followed by [u]. *)
Fixpoint has_backslash_u (s : text) : bool :=
  match s with
  | [] => false
  | c :: s' =>
      ((c =? 92) && match s' with d :: _ => d =? 117 | [] => false end)
      || has_backslash_u s'
  end.

(** [s1 < s2] on strings: lexicographic by code point. *)
Fixpoint text_lt (s1 s2 : text) : bool :=
  match s1, s2 with
  | _, [] => false
  | [], _ :: _ => true
  | c1 :: s1', c2 :: s2' =>
      if c1 <? c2 then true else if c2 <? c1 then false else text_lt s1' s2'
  end.

(** [s.replace(old, new)] for single characters. *)
Definition replace_char (old new : N) (s : text) : text :=
  map (fun c => if c =? old then new else c) s.

Fixpoint ends_with (suffix s : text) : bool :=
  bool_decide (s = suffix) ||
  match s with
  | [] => false
  | _ :: s' => ends_with suffix s'
  end.

(** The UTF-8 codec refuses surrogate code points. *)
Definition is_surrogate (c : N) : bool := (55296 <=? c) && (c <=? 57343).

Definition encodable (s : text) : bool := forallb (fun c => negb (is_surrogate c)) s.

(** ** [json.dumps(v, ensure_ascii=False)] *)

Definition hex_digit (n : N) : N := if n <? 10 then 48 + n else 87 + n.

(** One character of a string literal: the short escapes, [\u00XX] for the
    other control characters, everything else verbatim. *)
Definition escape_char (c : N) : text :=
  if c =? 34 then [92; 34]
  else if c =? 92 then [92; 92]
  else if c =? 10 then [92; 110]
  else if c =? 13 then [92; 114]
  else if c =? 9 then [92; 116]
  else if c =? 8 then [92; 98]
  else if c =? 12 then [92; 102]
  else if c <? 32 then [92; 117; 48; 48; hex_digit (c / 16); hex_digit (c mod 16)]
  else [c].

Definition encode_string (s : text) : text := 34 :: flat_map escape_char s ++ [34].

Fixpoint uint_text (d : Decimal.uint) : text :=
  match d with
  | Decimal.Nil => []
  | Decimal.D0 d' => 48 :: uint_text d'
  | Decimal.D1 d' => 49 :: uint_text d'
  | Decimal.D2 d' => 50 :: uint_text d'
  | Decimal.D3 d' => 51 :: uint_text d'
  | Decimal.D4 d' => 52 :: uint_text d'
  | Decimal.D5 d' => 53 :: uint_text d'
  | Decimal.D6 d' => 54 :: uint_text d'
  | Decimal.D7 d' => 55 :: uint_text d'
  | Decimal.D8 d' => 56 :: uint_text d'
  | Decimal.D9 d' => 57 :: uint_text d'
  end.

(** [str(z)] for an integer. *)
Definition int_text (z : Z) : text :=
  match Z.to_int z with
  | Decimal.Pos d => uint_text d
  | Decimal.Neg d => 45 :: uint_text d
  end.

(** [sep.join(parts)]. *)
Fixpoint join (sep : text) (parts : list text) : text :=
  match parts with
  | [] => []
  | [p] => p
  | p :: ps => p ++ sep ++ join sep ps
  end.

Fixpoint dumps (v : json) : text :=
  match v with
  | JNull => txt "null"
  | JBool true => txt "true"
  | JBool false => txt "false"
  | JInt z => int_text z
  | JStr s => encode_string s
  | JArr items => 91 :: join (txt ", ") (map dumps items) ++ [93]
  | JObj fields =>
      123 :: join (txt ", ")
               (map (fun kv => encode_string (fst kv) ++ txt ": " ++ dumps (snd kv))
                    fields)
          ++ [125]
  end.

(** ** [json.loads(s)] *)

Definition is_ws (c : N) : bool := (c =? 32) || (c =? 9) || (c =? 10) || (c =? 13).

Fixpoint skip_ws (s : text) : text :=
  match s with
  | [] => []
  | c :: s' => if is_ws c then skip_ws s' else s
  end.

Definition hex_val (c : N) : option N :=
  if (48 <=? c) && (c <=? 57) then Some (c - 48)
  else if (97 <=? c) && (c <=? 102) then Some (c - 87)
  else if (65 <=? c) && (c <=? 70) then Some (c - 55)
  else None.

Definition hex4 (a b c d : N) : option N :=
  match hex_val a, hex_val b, hex_val c, hex_val d with
  | Some x, Some y, Some z, Some w => Some (((x * 16 + y) * 16 + z) * 16 + w)
  | _, _, _, _ => None
  end.

Definition is_high_surrogate (c : N) : bool := (55296 <=? c) && (c <=? 56319).
Definition is_low_surrogate (c : N) : bool := (56320 <=? c) && (c <=? 57343).

Definition join_surrogates (hi lo : N) : N :=
  65536 + (hi - 55296) * 1024 + (lo - 56320).

Definition simple_escape (c : N) : option N :=
  if c =? 34 then Some 34
  else if c =? 92 then Some 92
  else if c =? 47 then Some 47
  else if c =? 98 then Some 8
  else if c =? 102 then Some 12
  else if c =? 110 then Some 10
  else if c =? 114 then Some 13
  else if c =? 116 then Some 9
  else None.

(** The body of a string literal after its opening quote, up to and
    including the closing quote (strict mode: a raw control character is an
    error).  A [\u] escape of a high surrogate directly followed by one of a
    low surrogate denotes one character. *)
Fixpoint scan_string (s : text) : option (text * text) :=
  match s with
  | [] => None
  | c :: s1 =>
      if c =? 34 then Some ([], s1)
      else if c =? 92 then
        match s1 with
        | [] => None
        | e :: s2 =>
            if e =? 117 then
              match s2 with
              | h1 :: h2 :: h3 :: h4 :: s3 =>
                  match hex4 h1 h2 h3 h4 with
                  | None => None
                  | Some u =>
                      let single :=
                        match scan_string s3 with
                        | Some (t, r) => Some (u :: t, r)
                        | None => None
                        end in
                      if is_high_surrogate u then
                        match s3 with
                        | b :: u' :: l1 :: l2 :: l3 :: l4 :: s4 =>
                            if (b =? 92) && (u' =? 117) then
                              match hex4 l1 l2 l3 l4 with
                              | None => None
                              | Some lo =>
                                  if is_low_surrogate lo then
                                    match scan_string s4 with
                                    | Some (t, r) => Some (join_surrogates u lo :: t, r)
                                    | None => None
                                    end
                                  else single
                              end
                            else single
                        | _ => single
                        end
                      else single
                  end
              | _ => None
              end
            else
              match simple_escape e with
              | None => None
              | Some x =>
                  match scan_string s2 with
                  | Some (t, r) => Some (x :: t, r)
                  | None => None
                  end
              end
        end
      else if c <? 32 then None
      else
        match scan_string s1 with
        | Some (t, r) => Some (c :: t, r)
        | None => None
        end
  end.

Definition is_digit (c : N) : bool := (48 <=? c) && (c <=? 57).

Definition digit_cons (c : N) (d : Decimal.uint) : Decimal.uint :=
  if c =? 48 then Decimal.D0 d else if c =? 49 then Decimal.D1 d
  else if c =? 50 then Decimal.D2 d else if c =? 51 then Decimal.D3 d
  else if c =? 52 then Decimal.D4 d else if c =? 53 then Decimal.D5 d
  else if c =? 54 then Decimal.D6 d else if c =? 55 then Decimal.D7 d
  else if c =? 56 then Decimal.D8 d else Decimal.D9 d.

(** The longest run of decimal digits at the head of [s]. *)
Fixpoint read_uint (s : text) : Decimal.uint * text :=
  match s with
  | [] => (Decimal.Nil, [])
  | c :: s' =>
      if is_digit c then
        let '(d, r) := read_uint s' in (digit_cons c d, r)
      else (Decimal.Nil, s)
  end.

(** An integer literal: an optional minus sign, then either a single [0]
    or a non-zero digit followed by any digits. *)
Definition parse_int (s : text) : option (Z * text) :=
  let '(negative, s1) :=
    match s with
    | c :: s' => if c =? 45 then (true, s') else (false, s)
    | [] => (false, s)
    end in
  match s1 with
  | [] => None
  | c :: s2 =>
      if c =? 48 then Some (0%Z, s2)
      else if is_digit c then
        let '(d, r) := read_uint s1 in
        Some (if negative then (- Z.of_uint d)%Z else Z.of_uint d, r)
      else None
  end.

Fixpoint strip_prefix (p s : text) : option text :=
  match p, s with
  | [], _ => Some s
  | a :: p', b :: s' => if a =? b then strip_prefix p' s' else None
  | _ :: _, [] => None
  end.

(** [dict(pairs)]: a repeated key keeps its first position and takes its
    last value. *)
Definition dict_of_pairs (pairs : list (text * json)) : dict :=
  dict_update [] pairs.

(** The recursive-descent scanner.  [fuel] bounds the recursion depth; the
    three functions expect no leading white space. *)
Fixpoint parse_value (fuel : nat) (s : text) : option (json * text) :=
  match fuel with
  | O => None
  | S fuel' =>
      match s with
      | [] => None
      | c :: s1 =>
          if c =? 34 then
            match scan_string s1 with
            | Some (t, r) => Some (JStr t, r)
            | None => None
            end
          else if c =? 123 then
            match skip_ws s1 with
            | d :: s2 =>
                if d =? 125 then Some (JObj [], s2)
                else
                  match parse_pairs fuel' (d :: s2) with
                  | Some (pairs, r) => Some (JObj (dict_of_pairs pairs), r)
                  | None => None
                  end
            | [] => None
            end
          else if c =? 91 then
            match skip_ws s1 with
            | d :: s2 =>
                if d =? 93 then Some (JArr [], s2)
                else
                  match parse_items fuel' (d :: s2) with
                  | Some (items, r) => Some (JArr items, r)
                  | None => None
                  end
            | [] => None
            end
          else
            match strip_prefix (txt "null") s with
            | Some r => Some (JNull, r)
            | None =>
                match strip_prefix (txt "true") s with
                | Some r => Some (JBool true, r)
                | None =>
                    match strip_prefix (txt "false") s with
                    | Some r => Some (JBool false, r)
                    | None =>
                        match parse_int s with
                        | Some (z, r) => Some (JInt z, r)
                        | None => None
                        end
                    end
                end
            end
      end
  end
with parse_items (fuel : nat) (s : text) : option (list json * text) :=
  match fuel with
  | O => None
  | S fuel' =>
      match parse_value fuel' s with
      | None => None
      | Some (v, r) =>
          match skip_ws r with
          | d :: r1 =>
              if d =? 44 then
                match parse_items fuel' (skip_ws r1) with
                | Some (vs, r2) => Some (v :: vs, r2)
                | None => None
                end
              else if d =? 93 then Some ([v], r1)
              else None
          | [] => None
          end
      end
  end
with parse_pairs (fuel : nat) (s : text) : option (list (text * json) * text) :=
  match fuel with
  | O => None
  | S fuel' =>
      match s with
      | c :: s1 =>
          if c =? 34 then
            match scan_string s1 with
            | None => None
            | Some (k, r) =>
                match skip_ws r with
                | d :: r1 =>
                    if d =? 58 then
                      match parse_value fuel' (skip_ws r1) with
                      | None => None
                      | Some (v, r2) =>
                          match skip_ws r2 with
                          | e :: r3 =>
                              if e =? 44 then
                                match parse_pairs fuel' (skip_ws r3) with
                                | Some (kvs, r4) => Some ((k, v) :: kvs, r4)
                                | None => None
                                end
                              else if e =? 125 then Some ([(k, v)], r3)
                              else None
                          | [] => None
                          end
                      end
                    else None
                | [] => None
                end
            end
          else None
      | [] => None
      end
  end.

(** [json.loads]: one value surrounded by optional white space.  [None]
    stands for [JSONDecodeError]. *)
Definition loads (s : text) : option json :=
  match parse_value (S (length s)) (skip_ws s) with
  | Some (v, r) => match skip_ws r with [] => Some v | _ :: _ => None end
  | None => None
  end.

Local Close Scope N_scope.

(** ** [datetime.fromisoformat] *)

Local Open Scope N_scope.

(** Exactly [width] decimal digits. *)
Fixpoint read_fixed (width : nat) (s : text) (acc : N) : option (N * text) :=
  match width with
  | O => Some (acc, s)
  | S w =>
      match s with
      | c :: s' => if is_digit c then read_fixed w s' (acc * 10 + (c - 48)) else None
      | [] => None
      end
  end.

Definition is_leap (y : N) : bool :=
  ((y mod 4 =? 0) && negb (y mod 100 =? 0)) || (y mod 400 =? 0).

Definition days_in_month (y m : N) : N :=
  if m =? 2 then (if is_leap y then 29 else 28)
  else if (m =? 4) || (m =? 6) || (m =? 9) || (m =? 11) then 30
  else 31.

(** The parser accepts the texts [isoformat()] prints for a naive
    [datetime], [YYYY-MM-DDTHH:MM:SS] with an optional [.ffffff], which is
    what [save] writes; a zero fraction is dropped as [isoformat()] does.
    Other ISO 8601 spellings are rejected ([None] stands for [ValueError]). *)
Definition fromisoformat (s : text) : option datetime :=
  match read_fixed 4 s 0 with
  | Some (y, c1 :: s1) =>
  match read_fixed 2 s1 0 with
  | Some (mo, c2 :: s2) =>
  match read_fixed 2 s2 0 with
  | Some (d, c3 :: s3) =>
  match read_fixed 2 s3 0 with
  | Some (h, c4 :: s4) =>
  match read_fixed 2 s4 0 with
  | Some (mi, c5 :: s5) =>
  match read_fixed 2 s5 0 with
  | Some (sec, rest) =>
      if (c1 =? 45) && (c2 =? 45) && (c3 =? 84) && (c4 =? 58) && (c5 =? 58)
         && (1 <=? y) && (1 <=? mo) && (mo <=? 12)
         && (1 <=? d) && (d <=? days_in_month y mo)
         && (h <? 24) && (mi <? 60) && (sec <? 60)
      then
        match rest with
        | [] => Some {| isoformat := s |}
        | dot :: fraction =>
            if dot =? 46 then
              match read_fixed 6 fraction 0 with
              | Some (us, []) =>
                  Some {| isoformat := if us =? 0 then take 19 s else s |}
              | _ => None
              end
            else None
        end
      else None
  | None => None
  end
  | _ => None
  end
  | _ => None
  end
  | _ => None
  end
  | _ => None
  end
  | _ => None
  end.

Local Close Scope N_scope.

(** ** SessionManager *)

(** The manager together with the part of the world it acts on: the two
    session directories (file name to content), the heap of [Session]
    objects, the clock behind [datetime.now()], and a trace of the files
    written so far. *)
Record Manager : Type := {
  sessions_dir : text;
  files : gmap text text;
  legacy_files : gmap text text;
  _cache : gmap text nat;
  heap : list Session;
  clock : nat -> datetime;
  clock_reads : nat;
  writes : list text
}.

Definition set_files (f : gmap text text) (st : Manager) : Manager :=
  {| sessions_dir := sessions_dir st; files := f; legacy_files := legacy_files st;
     _cache := _cache st; heap := heap st; clock := clock st;
     clock_reads := clock_reads st; writes := writes st |}.

Definition set_legacy_files (f : gmap text text) (st : Manager) : Manager :=
  {| sessions_dir := sessions_dir st; files := files st; legacy_files := f;
     _cache := _cache st; heap := heap st; clock := clock st;
     clock_reads := clock_reads st; writes := writes st |}.

Definition set_cache (c : gmap text nat) (st : Manager) : Manager :=
  {| sessions_dir := sessions_dir st; files := files st;
     legacy_files := legacy_files st; _cache := c; heap := heap st;
     clock := clock st; clock_reads := clock_reads st; writes := writes st |}.

Definition set_heap (h : list Session) (st : Manager) : Manager :=
  {| sessions_dir := sessions_dir st; files := files st;
     legacy_files := legacy_files st; _cache := _cache st; heap := h;
     clock := clock st; clock_reads := clock_reads st; writes := writes st |}.

Definition log_write (name : text) (st : Manager) : Manager :=
  {| sessions_dir := sessions_dir st; files := files st;
     legacy_files := legacy_files st; _cache := _cache st; heap := heap st;
     clock := clock st; clock_reads := clock_reads st;
     writes := writes st ++ [name] |}.

(** [datetime.now()]. *)
Definition now (st : Manager) : datetime * Manager :=
  (clock st (clock_reads st),
   {| sessions_dir := sessions_dir st; files := files st;
      legacy_files := legacy_files st; _cache := _cache st; heap := heap st;
      clock := clock st; clock_reads := S (clock_reads st); writes := writes st |}).

(** A newly constructed object gets the next free address. *)
Definition alloc (s : Session) (st : Manager) : nat * Manager :=
  (length (heap st), set_heap (heap st ++ [s]) st).

(** Modelled from the spec: [safe_filename] of [nanobot.utils.helpers],
    which is not part of the sources at hand ("sanitizing
    filesystem-unsafe characters"): the characters that are unsafe in a
    file name (angle brackets, colon, double quote, slash, backslash,
    vertical bar, question mark, asterisk) become underscores and the
    result is stripped. *)
Definition safe_filename (name : text) : text :=
  py_strip
    (map (fun c : N =>
            if bool_decide (c ∈ [60; 62; 58; 34; 47; 92; 124; 63; 42]%N)
            then 95%N else c)
         name).

(** [SessionManager._get_session_path], as a file name inside the sessions
    directory; [_get_legacy_session_path] is the same name inside the
    legacy directory. *)
Definition _get_session_path (k : text) : text :=
  safe_filename (replace_char 58 95 k) ++ txt ".jsonl".

(** The local variables of the reading loop of [_load]. *)
Record load_state : Type := {
  ld_messages : list dict;
  ld_metadata : json;
  ld_created_at : option datetime;
  ld_updated_at : option datetime;
  ld_last_consolidated : json;
  ld_needs_normalize_save : bool
}.

Definition load_init : load_state :=
  {| ld_messages := []; ld_metadata := JObj []; ld_created_at := None;
     ld_updated_at := None; ld_last_consolidated := JInt 0;
     ld_needs_normalize_save := false |}.

(** [datetime.fromisoformat(data[k]) if data.get(k) else None]. *)
Definition parse_stamp (data : dict) (k : text) : result (option datetime) :=
  let v := py_get k data in
  if truthy v then
    match v with
    | JStr s =>
        match fromisoformat s with
        | Some d => Ok (Some d)
        | None => Raise ValueError
        end
    | _ => Raise TypeError
    end
  else Ok None.

(** One iteration of the reading loop. *)
Definition load_line (acc : load_state) (raw : text) : result load_state :=
  let flag := ld_needs_normalize_save acc || has_backslash_u raw in
  let line := py_strip raw in
  match line with
  | [] =>
      Ok {| ld_messages := ld_messages acc; ld_metadata := ld_metadata acc;
            ld_created_at := ld_created_at acc; ld_updated_at := ld_updated_at acc;
            ld_last_consolidated := ld_last_consolidated acc;
            ld_needs_normalize_save := flag |}
  | _ :: _ =>
      match loads line with
      | None => Raise JSONDecodeError
      | Some (JObj data) =>
          if is_str (py_get (txt "_type") data) (txt "metadata") then
            match parse_stamp data (txt "created_at") with
            | Raise e => Raise e
            | Ok c =>
                match parse_stamp data (txt "updated_at") with
                | Raise e => Raise e
                | Ok u =>
                    Ok {| ld_messages := ld_messages acc;
                          ld_metadata :=
                            py_get_default (txt "metadata") (JObj []) data;
                          ld_created_at := c; ld_updated_at := u;
                          ld_last_consolidated :=
                            py_get_default (txt "last_consolidated") (JInt 0) data;
                          ld_needs_normalize_save := flag |}
                end
            end
          else
            Ok {| ld_messages := ld_messages acc ++ [data];
                  ld_metadata := ld_metadata acc;
                  ld_created_at := ld_created_at acc;
                  ld_updated_at := ld_updated_at acc;
                  ld_last_consolidated := ld_last_consolidated acc;
                  ld_needs_normalize_save := flag |}
      | Some _ => Raise AttributeError
      end
  end.

Fixpoint load_lines (ls : list text) (acc : load_state) : result load_state :=
  match ls with
  | [] => Ok acc
  | raw :: ls' =>
      match load_line acc raw with
      | Raise e => Raise e
      | Ok acc' => load_lines ls' acc'
      end
  end.

(** The lines [save] writes: the metadata record, then one per message. *)
Definition metadata_line (s : Session) : json :=
  JObj [(txt "_type", JStr (txt "metadata"));
        (txt "created_at", JStr (isoformat (created_at s)));
        (txt "updated_at", JStr (isoformat (updated_at s)));
        (txt "metadata", metadata s);
        (txt "last_consolidated", last_consolidated s)].

Definition session_lines (s : Session) : list text :=
  dumps (metadata_line s) :: map (fun m => dumps (JObj m)) (messages s).

(** [f.write(line + "\n")] for each line of a file opened with ["w"]: the
    file holds the lines before the first one the codec refuses. *)
Fixpoint write_lines (ls : list text) : text * bool :=
  match ls with
  | [] => ([], true)
  | l :: ls' =>
      if encodable l then
        let '(rest, ok) := write_lines ls' in (l ++ 10%N :: rest, ok)
      else ([], false)
  end.

(** [SessionManager.save]; the session is given by its address. *)
Definition save (a : nat) (st : Manager) : result unit * Manager :=
  match heap st !! a with
  | None => (Raise AttributeError, st)
  | Some session =>
      let path := _get_session_path (key session) in
      let '(content, ok) := write_lines (session_lines session) in
      let st1 := log_write path (set_files (<[path := content]> (files st)) st) in
      if ok then (Ok tt, set_cache (<[key session := a]> (_cache st1)) st1)
      else (Raise UnicodeEncodeError, st1)
  end.

(** [shutil.move] of a legacy file when the session file is missing. *)
Definition migrate_legacy (path : text) (st : Manager) : Manager :=
  match files st !! path with
  | Some _ => st
  | None =>
      match legacy_files st !! path with
      | Some content =>
          set_legacy_files (delete path (legacy_files st))
            (set_files (<[path := content]> (files st)) st)
      | None => st
      end
  end.

(** [created_at or datetime.now()]. *)
Definition or_now (d : option datetime) (st : Manager) : datetime * Manager :=
  match d with
  | Some d' => (d', st)
  | None => now st
  end.

(** [SessionManager._load]: the address of the loaded session, or [None]. *)
Definition _load (k : text) (st : Manager) : option nat * Manager :=
  let path := _get_session_path k in
  let st1 := migrate_legacy path st in
  match files st1 !! path with
  | None => (None, st1)
  | Some content =>
      match load_lines (file_lines content) load_init with
      | Raise _ => (None, st1)
      | Ok acc =>
          let '(c, st2) := or_now (ld_created_at acc) st1 in
          let '(u, st3) := or_now (ld_updated_at acc) st2 in
          let session :=
            {| key := k; messages := ld_messages acc; created_at := c;
               updated_at := u; metadata := ld_metadata acc;
               last_consolidated := ld_last_consolidated acc |} in
          let '(a, st4) := alloc session st3 in
          if ld_needs_normalize_save acc then
            match save a st4 with
            | (Ok _, st5) => (Some a, st5)
            | (Raise _, st5) => (None, st5)
            end
          else (Some a, st4)
      end
  end.

(** [SessionManager.get_or_create]. *)
Definition get_or_create (k : text) (st : Manager) : nat * Manager :=
  match _cache st !! k with
  | Some a => (a, st)
  | None =>
      let '(loaded, st1) := _load k st in
      let '(a, st2) :=
        match loaded with
        | Some a => (a, st1)
        | None =>
            let '(c, st') := now st1 in
            let '(u, st'') := now st' in
            alloc (new_session k c u) st''
        end in
      (a, set_cache (<[k := a]> (_cache st2)) st2)
  end.

(** [SessionManager.invalidate]. *)
Definition invalidate (k : text) (st : Manager) : Manager :=
  set_cache (delete k (_cache st)) st.

(** ** [list_sessions] *)

Definition as_int (v : json) : option Z :=
  match v with
  | JInt z => Some z
  | JBool true => Some 1
  | JBool false => Some 0
  | _ => None
  end.

(** Python's [==] on JSON values: numbers and booleans compare by value,
    dictionaries regardless of order. *)
Fixpoint py_eq (a b : json) : bool :=
  match a, b with
  | JNull, JNull => true
  | JStr s, JStr t => bool_decide (s = t)
  | JArr l1, JArr l2 =>
      (fix go (l1 l2 : list json) : bool :=
         match l1, l2 with
         | [], [] => true
         | x :: l1', y :: l2' => py_eq x y && go l1' l2'
         | _, _ => false
         end) l1 l2
  | JObj f1, JObj f2 =>
      (length f1 =? length f2)%nat &&
      (fix go (f : list (text * json)) : bool :=
         match f with
         | [] => true
         | (k, v) :: f' =>
             match dict_get k f2 with
             | Some v' => py_eq v v' && go f'
             | None => false
             end
         end) f1
  | _, _ =>
      match as_int a, as_int b with
      | Some x, Some y => x =? y
      | _, _ => false
      end
  end.

(** Python's [<] on JSON values; unordered types raise [TypeError]. *)
Fixpoint py_lt (a b : json) : result bool :=
  match a, b with
  | JStr s, JStr t => Ok (text_lt s t)
  | JArr l1, JArr l2 =>
      (fix go (l1 l2 : list json) : result bool :=
         match l1, l2 with
         | _, [] => Ok false
         | [], _ :: _ => Ok true
         | x :: l1', y :: l2' => if py_eq x y then go l1' l2' else py_lt x y
         end) l1 l2
  | _, _ =>
      match as_int a, as_int b with
      | Some x, Some y => Ok (x <? y)
      | _, _ => Raise TypeError
      end
  end.

(** The sort key of [list_sessions]: [x.get("updated_at", "")]. *)
Definition sort_key (x : dict) : json := py_get_default (txt "updated_at") (JStr []) x.

(** [sorted(l, key=sort_key, reverse=True)] as a stable insertion sort:
    [x] goes before the first element whose key is smaller.  Whenever every
    comparison succeeds this is the list Python's sort returns; a
    comparison that raises makes the whole call raise. *)
Fixpoint insert_desc (x : dict) (l : list dict) : result (list dict) :=
  match l with
  | [] => Ok [x]
  | y :: l' =>
      match py_lt (sort_key y) (sort_key x) with
      | Raise e => Raise e
      | Ok true => Ok (x :: y :: l')
      | Ok false =>
          match insert_desc x l' with
          | Raise e => Raise e
          | Ok r => Ok (y :: r)
          end
      end
  end.

Fixpoint sorted_desc_into (acc : list dict) (l : list dict) : result (list dict) :=
  match l with
  | [] => Ok acc
  | x :: l' =>
      match insert_desc x acc with
      | Raise e => Raise e
      | Ok acc' => sorted_desc_into acc' l'
      end
  end.

Definition sorted_desc (l : list dict) : result (list dict) := sorted_desc_into [] l.

(** [path.stem] of a file name matching [*.jsonl]. *)
Definition stem (name : text) : text :=
  match name with
  | c :: _ :: _ :: _ :: _ :: _ :: _ :: _ =>
      take (length name - 6) name
  | _ => name
  end.

(** The body of the loop of [list_sessions] for one file: the summary to
    append, if any.  Every exception is swallowed by the [except] clause. *)
Definition session_summary (dir name content : text) : option dict :=
  let first_line := py_strip (hd [] (file_lines content)) in
  match first_line with
  | [] => None
  | _ :: _ =>
      match loads first_line with
      | Some (JObj data) =>
          if is_str (py_get (txt "_type") data) (txt "metadata") then
            Some [(txt "key", JStr (replace_char 95 58 (stem name)));
                  (txt "created_at", py_get (txt "created_at") data);
                  (txt "updated_at", py_get (txt "updated_at") data);
                  (txt "path", JStr (dir ++ 47%N :: name))]
          else None
      | _ => None
      end
  end.

(** [self.sessions_dir.glob("*.jsonl")], in the order of the directory
    listing. *)
Definition glob_jsonl (st : Manager) : list (text * text) :=
  filter (fun nc => ends_with (txt ".jsonl") (fst nc) = true) (map_to_list (files st)).

Definition session_summaries (st : Manager) : list dict :=
  omap (fun nc => session_summary (sessions_dir st) (fst nc) (snd nc)) (glob_jsonl st).

(** [SessionManager.list_sessions]. *)
Definition list_sessions (st : Manager) : result (list dict) :=
  sorted_desc (session_summaries st).

(** ** Clients of a managed session *)

Definition update_session (a : nat) (f : Session -> Session) (st : Manager) : Manager :=
  match heap st !! a with
  | Some s => set_heap (<[a := f s]> (heap st)) st
  | None => st
  end.

(** [session.add_message(role, content, **kwargs)] on the object at [a]. *)
Definition session_add_message (a : nat) (role content : text) (kwargs : dict)
    (st : Manager) : Manager :=
  let '(t1, st1) := now st in
  let '(t2, st2) := now st1 in
  update_session a (add_message t1 t2 role content kwargs) st2.

(** [session.clear()] on the object at [a]. *)
Definition session_clear (a : nat) (st : Manager) : Manager :=
  let '(t, st1) := now st in
  update_session a (clear t) st1.

(** One call on the manager or on one of its sessions. *)
Inductive op : Type :=
| GetOrCreate (k : text)
| Save (a : nat)
| Invalidate (k : text)
| ListSessions
| AddMessage (a : nat) (role content : text) (kwargs : dict)
| Clear (a : nat).

(** The state after a call, with the session [get_or_create] returned. *)
Definition run_op (o : op) (st : Manager) : option nat * Manager :=
  match o with
  | GetOrCreate k => let '(a, st') := get_or_create k st in (Some a, st')
  | Save a => (None, snd (save a st))
  | Invalidate k => (None, invalidate k st)
  | ListSessions => (None, st)
  | AddMessage a role content kwargs =>
      (None, session_add_message a role content kwargs st)
  | Clear a => (None, session_clear a st)
  end.

Fixpoint run_ops (ops : list op) (st : Manager) : Manager :=
  match ops with
  | [] => st
  | o :: ops' => run_ops ops' (snd (run_op o st))
  end.

(** ** Well-formed values *)







(** ** Vocabulary of the statements *)

(** *** History window *)




(** A tool-call round: question, assistant turn with a pending tool call,
    tool result, final assistant answer. *)
Definition tool_round_log : list dict :=
  [ [(txt "role", JStr (txt "user")); (txt "content", JStr (txt "weather?"))];
    [(txt "role", JStr (txt "assistant")); (txt "content", JStr []);
     (txt "tool_calls", JArr [JObj [(txt "id", JStr (txt "call_1"))]])];
    [(txt "role", JStr (txt "tool")); (txt "content", JStr (txt "sunny"));
     (txt "tool_call_id", JStr (txt "call_1"))];
    [(txt "role", JStr (txt "assistant")); (txt "content", JStr (txt "It is sunny."))] ].

Definition tool_round_session : Session :=
  {| key := txt "cli:direct"; messages := tool_round_log;
     created_at := {| isoformat := txt "2026-01-01T10:00:00" |};
     updated_at := {| isoformat := txt "2026-01-01T10:00:05" |};
     metadata := JObj []; last_consolidated := JInt 0 |}.

(** *** Context anchors *)

(** The values Python treats as false. *)
Definition falsy (v : json) : Prop :=
  v = JNull \/ v = JBool false \/ v = JInt 0 \/
  v = JStr [] \/ v = JArr [] \/ v = JObj [].

(** C10 as the spec words it: the only assistant messages that count are
    those whose [tool_calls] is absent, [None] or an empty list. *)
Definition anchor_by_enumeration (m : dict) : Prop :=
  _is_context_anchor m = true <->
  (dict_get (txt "role") m = Some (JStr (txt "user")) \/
   (dict_get (txt "role") m = Some (JStr (txt "assistant")) /\
    (dict_get (txt "tool_calls") m = None \/
     dict_get (txt "tool_calls") m = Some JNull \/
     dict_get (txt "tool_calls") m = Some (JArr [])))).

(** *** The session cache *)

(** C4 as the spec words it: whatever happens in between, two calls of
    [get_or_create] for one key return the same instance. *)
Definition same_instance_always (st : Manager) (k : text) (ops : list op) : Prop :=
  fst (get_or_create k (run_ops ops (snd (get_or_create k st)))) =
  fst (get_or_create k st).

(** A manager on an empty workspace. *)
Definition empty_manager (clk : nat -> datetime) : Manager :=
  {| sessions_dir := txt "/workspace/sessions"; files := ∅; legacy_files := ∅;
     _cache := ∅; heap := []; clock := clk; clock_reads := 0; writes := [] |}.

(** A clock that stands still. *)
Definition fixed_clock (n : nat) : datetime :=
  {| isoformat := txt "2026-01-01T10:00:00" |}.

(** A call leaves the cache entry of [k] on instance [a]: it is no
    [invalidate(k)], and no [save] of another instance carrying key [k]. *)
Definition preserves_entry (k : text) (a : nat) (st : Manager) (o : op) : Prop :=
  match o with
  | Invalidate k' => k' <> k
  | Save a' => forall s, heap st !! a' = Some s -> key s = k -> a' = a
  | _ => True
  end.

Fixpoint ops_preserve (k : text) (a : nat) (ops : list op) (st : Manager) : Prop :=
  match ops with
  | [] => True
  | o :: ops' => preserves_entry k a st o /\ ops_preserve k a ops' (snd (run_op o st))
  end.

(** *** Session files *)



(** Two session files whose metadata record has no [updated_at]. *)
Definition undated_files_manager : Manager :=
  set_files
    {[ txt "cli_direct.jsonl" :=
         jtxt "{'_type': 'metadata', 'created_at': '2026-01-01T10:00:00'}" ++ [10%N];
       txt "telegram_42.jsonl" :=
         jtxt "{'_type': 'metadata', 'created_at': '2026-01-02T10:00:00'}" ++ [10%N] ]}
    (empty_manager fixed_clock).

(** *** Listing *)

(** [x] is listed before [y]: the key of [x] is not smaller. *)
Definition not_older (x y : dict) : Prop :=
  exists s t, sort_key x = JStr s /\ sort_key y = JStr t /\ text_lt s t = false.

(** The sort key of [x] is text. *)
Definition text_keyed (x : dict) : Prop := exists s, sort_key x = JStr s.

(** *** Reading back JSON text *)


Local Open Scope N_scope.


Local Close Scope N_scope.






(** *** Saved sessions *)













(** *** Loaded sessions *)




Local Open Scope N_scope.







Local Close Scope N_scope.

(** *** Normalising load *)








(** * Properties *)

(** ** Dictionaries *)




(** ** Anchors *)

Lemma count_anchors_app (l1 l2 : list dict) :
  count_anchors (l1 ++ l2) = count_anchors l1 + count_anchors l2.
Proof. induction l1 as [|m l1 IH]; simpl; [reflexivity | rewrite IH; lia]. Qed.







(** ** The projection of a message to a history entry *)







(** ** History window *)






(** ** Clearing and the consolidation watermark *)

(** C7.  After [clear] the log is empty, every history query returns the
    empty sequence, the watermark is 0, and key and metadata are as before. *)
Theorem clear_resets (now : datetime) (self : Session) :
  messages (clear now self) = [] /\
  (forall n : Z, get_history (clear now self) n = Ok []) /\
  last_consolidated (clear now self) = JInt 0 /\
  key (clear now self) = key self /\
  metadata (clear now self) = metadata self.
Proof.
  repeat split.
  intros n. unfold get_history, history_window. simpl.
  destruct (n <=? 0); reflexivity.
Qed.

(** C8.  Two sessions with the same message list answer every history
    query alike, whatever their watermarks. *)
Theorem get_history_ignores_watermark (s1 s2 : Session) (n : Z) :
  messages s1 = messages s2 -> get_history s1 n = get_history s2 n.
Proof.
  intros H. unfold get_history, history_window. rewrite H. reflexivity.
Qed.

Lemma get_history_ignores_watermark_witness :
  get_history tool_round_session 2 =
  get_history
    {| key := txt "cli:direct"; messages := tool_round_log;
       created_at := {| isoformat := txt "2026-01-01T10:00:00" |};
       updated_at := {| isoformat := txt "2026-01-01T10:00:05" |};
       metadata := JObj []; last_consolidated := JInt 3 |} 2.
Proof.
  apply (get_history_ignores_watermark tool_round_session). reflexivity.
Defined.

(** ** Context anchors *)

Lemma truthy_false_iff (v : json) : truthy v = false <-> falsy v.
Proof.
  unfold falsy. split.
  - destruct v as [|b|z|s|l|f]; simpl; intros H; auto.
    + destruct b; [discriminate | auto].
    + apply negb_false_iff, Z.eqb_eq in H. subst. auto 6.
    + destruct s; [auto 6 | discriminate].
    + destruct l; [auto 6 | discriminate].
    + destruct f; [auto 7 | discriminate].
  - intros [->|[->|[->|[->|[->| ->]]]]]; reflexivity.
Qed.

Lemma is_str_true (v : json) (s : text) : is_str v s = true <-> v = JStr s.
Proof.
  destruct v; simpl; try (split; [discriminate | congruence]).
  rewrite bool_decide_eq_true. split; congruence.
Qed.

(** C10, counterexample.  [not message.get("tool_calls")] also holds for
    an empty string, which is neither absent, [None] nor an empty list. *)
Lemma anchor_by_enumeration_fails :
  ~ anchor_by_enumeration
      [(txt "role", JStr (txt "assistant")); (txt "content", JStr (txt "ok"));
       (txt "tool_calls", JStr [])].
Proof.
  unfold anchor_by_enumeration. intros [H _].
  destruct (H eq_refl) as [Hu | [_ [Hn | [Hn | Hn]]]]; discriminate.
Qed.

(** C10, as amended.  A message is an anchor exactly when its role is
    ["user"], or its role is ["assistant"] and its [tool_calls] is absent or
    false in Python's sense ([None], [False], [0], an empty string, list or
    object).  An assistant message with a non-empty [tool_calls] list is no
    anchor, nor is a message with any other role; [count_context_messages]
    counts the anchors of the log. *)
Theorem anchor_characterisation (m : dict) :
  (_is_context_anchor m = true <->
   (dict_get (txt "role") m = Some (JStr (txt "user")) \/
    (dict_get (txt "role") m = Some (JStr (txt "assistant")) /\
     (dict_get (txt "tool_calls") m = None \/
      exists v, dict_get (txt "tool_calls") m = Some v /\ falsy v)))) /\
  (forall x xs,
     dict_get (txt "role") m = Some (JStr (txt "assistant")) ->
     dict_get (txt "tool_calls") m = Some (JArr (x :: xs)) ->
     _is_context_anchor m = false) /\
  (dict_get (txt "role") m <> Some (JStr (txt "user")) ->
   dict_get (txt "role") m <> Some (JStr (txt "assistant")) ->
   _is_context_anchor m = false) /\
  (forall l : list dict,
     count_anchors (l ++ [m]) =
     count_anchors l + (if _is_context_anchor m then 1 else 0)).
Proof.
  assert (Hstr : forall k s, py_get k m = JStr s <-> dict_get k m = Some (JStr s)).
  { intros k s. unfold py_get. destruct (dict_get k m); simpl; split; congruence. }
  assert (Htc : truthy (py_get (txt "tool_calls") m) = false <->
                (dict_get (txt "tool_calls") m = None \/
                 exists v, dict_get (txt "tool_calls") m = Some v /\ falsy v)).
  { rewrite truthy_false_iff. unfold py_get.
    destruct (dict_get (txt "tool_calls") m) as [v|]; simpl.
    - split; [intros H; right; eauto | intros [H|(v' & [= <-] & H)]; congruence].
    - split; [auto | intros _; left; reflexivity]. }
  assert (Hiff : _is_context_anchor m = true <->
   (dict_get (txt "role") m = Some (JStr (txt "user")) \/
    (dict_get (txt "role") m = Some (JStr (txt "assistant")) /\
     (dict_get (txt "tool_calls") m = None \/
      exists v, dict_get (txt "tool_calls") m = Some v /\ falsy v)))).
  { unfold _is_context_anchor.
    destruct (is_str (py_get (txt "role") m) (txt "user")) eqn:Eu.
    - apply is_str_true, Hstr in Eu. tauto.
    - assert (Hnu : dict_get (txt "role") m <> Some (JStr (txt "user"))).
      { intros H. apply Hstr, is_str_true in H. congruence. }
      destruct (is_str (py_get (txt "role") m) (txt "assistant")) eqn:Ea; simpl.
      + apply is_str_true, Hstr in Ea. rewrite negb_true_iff, Htc. tauto.
      + assert (Hna : dict_get (txt "role") m <> Some (JStr (txt "assistant"))).
        { intros H. apply Hstr, is_str_true in H. congruence. }
        split; [discriminate | tauto]. }
  split; [exact Hiff|]. split; [|split].
  - intros x xs Hr Ht. apply not_true_is_false. rewrite Hiff.
    intros [Hu | [_ [Hn | (v & Hv & Hf)]]].
    { rewrite Hr in Hu. vm_compute in Hu. discriminate Hu. }
    { congruence. }
    assert (v = JArr (x :: xs)) by congruence. subst v.
    destruct Hf as [?|[?|[?|[?|[?|?]]]]]; discriminate.
  - intros Hnu Hna. apply not_true_is_false. rewrite Hiff. tauto.
  - intros l. rewrite count_anchors_app. simpl. lia.
Qed.

Lemma anchor_characterisation_witness :
  _is_context_anchor
    [(txt "role", JStr (txt "assistant")); (txt "tool_calls", JArr [JNull])] = false.
Proof.
  apply (proj1 (proj2 (anchor_characterisation
           [(txt "role", JStr (txt "assistant")); (txt "tool_calls", JArr [JNull])]))
         JNull []); reflexivity.
Defined.

(** ** The session cache *)

(** C4, counterexample.  [invalidate] drops the cached entry, so the next
    [get_or_create] builds a second instance for the key. *)
Lemma same_instance_always_fails :
  ~ same_instance_always (empty_manager fixed_clock) (txt "cli:direct")
      [Invalidate (txt "cli:direct")].
Proof. unfold same_instance_always. vm_compute. discriminate. Qed.

Lemma save_cache (a : nat) (st : Manager) (k : text) :
  _cache (snd (save a st)) !! k =
  match heap st !! a with
  | Some s =>
      if snd (write_lines (session_lines s)) then <[key s := a]> (_cache st) !! k
      else _cache st !! k
  | None => _cache st !! k
  end.
Proof.
  unfold save. destruct (heap st !! a) as [s|]; [|reflexivity].
  destruct (write_lines (session_lines s)) as [content ok]. simpl.
  destruct ok; reflexivity.
Qed.

Lemma now_cache (st : Manager) : _cache (snd (now st)) = _cache st.
Proof. reflexivity. Qed.

Lemma migrate_legacy_cache (p : text) (st : Manager) :
  _cache (migrate_legacy p st) = _cache st.
Proof.
  unfold migrate_legacy. destruct (files st !! p); [reflexivity|].
  destruct (legacy_files st !! p); reflexivity.
Qed.

Lemma or_now_cache (d : option datetime) (st : Manager) :
  _cache (snd (or_now d st)) = _cache st.
Proof. destruct d; reflexivity. Qed.

Lemma or_now_heap (d : option datetime) (st : Manager) :
  heap (snd (or_now d st)) = heap st.
Proof. destruct d; reflexivity. Qed.

(** Loading key [k'] does not touch the cache entry of another key. *)
Lemma _load_cache_other (k k' : text) (st : Manager) :
  k' <> k -> _cache (snd (_load k' st)) !! k = _cache st !! k.
Proof.
  intros Hne. unfold _load.
  pose proof (migrate_legacy_cache (_get_session_path k') st) as Hm.
  destruct (files (migrate_legacy (_get_session_path k') st) !! _get_session_path k')
    as [content|]; [|simpl; congruence].
  destruct (load_lines (file_lines content) load_init) as [acc|e]; [|simpl; congruence].
  destruct (or_now (ld_created_at acc) _) as [c st2] eqn:E2.
  destruct (or_now (ld_updated_at acc) st2) as [u st3] eqn:E3.
  assert (H3 : _cache st3 = _cache st).
  { change st3 with (snd (u, st3)). rewrite <- E3, or_now_cache.
    change st2 with (snd (c, st2)). rewrite <- E2, or_now_cache. exact Hm. }
  assert (Hh3 : heap st3 = heap (migrate_legacy (_get_session_path k') st)).
  { change st3 with (snd (u, st3)). rewrite <- E3, or_now_heap.
    change st2 with (snd (c, st2)). rewrite <- E2, or_now_heap. reflexivity. }
  unfold alloc.
  set (session := {| key := k'; messages := ld_messages acc; created_at := c;
                     updated_at := u; metadata := ld_metadata acc;
                     last_consolidated := ld_last_consolidated acc |}).
  destruct (ld_needs_normalize_save acc); [|simpl; congruence].
  pose proof (save_cache (length (heap st3)) (set_heap (heap st3 ++ [session]) st3) k)
    as Hs.
  cbn [heap set_heap _cache] in Hs.
  rewrite lookup_app_r in Hs by lia.
  rewrite Nat.sub_diag in Hs. cbn [lookup list_lookup] in Hs.
  change (key session) with k' in Hs.
  rewrite lookup_insert_ne in Hs by exact Hne.
  assert (Hs' : _cache (save (length (heap st3))
                          (set_heap (heap st3 ++ [session]) st3)).2 !! k =
                _cache st !! k).
  { rewrite Hs, H3. destruct (write_lines (session_lines session)).2; reflexivity. }
  destruct (save (length (heap st3)) (set_heap (heap st3 ++ [session]) st3))
    as [[[]|e] st5]; exact Hs'.
Qed.

Lemma get_or_create_cached (k : text) (st : Manager) :
  _cache (snd (get_or_create k st)) !! k = Some (fst (get_or_create k st)).
Proof.
  unfold get_or_create. destruct (_cache st !! k) as [a|] eqn:E; [exact E|].
  destruct (_load k st) as [[a|] st1].
  - simpl. apply lookup_insert_eq.
  - simpl. apply lookup_insert_eq.
Qed.

Lemma get_or_create_hit (k : text) (a : nat) (st : Manager) :
  _cache st !! k = Some a -> get_or_create k st = (a, st).
Proof. intros H. unfold get_or_create. rewrite H. reflexivity. Qed.

Lemma get_or_create_cache_other (k k' : text) (st : Manager) :
  k' <> k -> _cache (snd (get_or_create k' st)) !! k = _cache st !! k.
Proof.
  intros Hne. unfold get_or_create.
  destruct (_cache st !! k') as [a|]; [reflexivity|].
  pose proof (_load_cache_other k k' st Hne) as Hl.
  destruct (_load k' st) as [[a|] st1]; simpl in *.
  - rewrite lookup_insert_ne by exact Hne. exact Hl.
  - rewrite lookup_insert_ne by exact Hne. exact Hl.
Qed.

Lemma update_session_cache (a : nat) (f : Session -> Session) (st : Manager) :
  _cache (update_session a f st) = _cache st.
Proof. unfold update_session. destruct (heap st !! a); reflexivity. Qed.

Lemma run_op_keeps_entry (k : text) (a : nat) (o : op) (st : Manager) :
  _cache st !! k = Some a ->
  preserves_entry k a st o ->
  _cache (snd (run_op o st)) !! k = Some a.
Proof.
  intros Hc Hp. destruct o as [k'|a'|k'| |a' role content kwargs|a']; simpl in *.
  - destruct (decide (k' = k)) as [->|Hne].
    + rewrite (get_or_create_hit k a st Hc). exact Hc.
    + pose proof (get_or_create_cache_other k k' st Hne) as H.
      destruct (get_or_create k' st) as [a0 st']. simpl in *. congruence.
  - rewrite save_cache. destruct (heap st !! a') as [s|] eqn:Eh; [|exact Hc].
    destruct (snd (write_lines (session_lines s))); [|exact Hc].
    destruct (decide (key s = k)) as [Hk|Hk].
    + rewrite (Hp s eq_refl Hk), Hk. apply lookup_insert_eq.
    + rewrite lookup_insert_ne by exact Hk. exact Hc.
  - rewrite lookup_delete_ne by exact Hp. exact Hc.
  - exact Hc.
  - unfold session_add_message. simpl. rewrite update_session_cache. exact Hc.
  - unfold session_clear. simpl. rewrite update_session_cache. exact Hc.
Qed.

(** C4, as amended.  After [get_or_create(k)] has returned an instance,
    every later [get_or_create(k)] returns that same instance, as long as
    no call in between is [invalidate(k)] or a [save] of another instance
    that carries key [k]. *)
Theorem get_or_create_same_instance (st : Manager) (k : text) (ops : list op) :
  ops_preserve k (fst (get_or_create k st)) ops (snd (get_or_create k st)) ->
  fst (get_or_create k (run_ops ops (snd (get_or_create k st)))) =
  fst (get_or_create k st).
Proof.
  pose proof (get_or_create_cached k st) as Hc.
  generalize dependent (snd (get_or_create k st)).
  generalize (fst (get_or_create k st)). intros a st1 Hc.
  revert st1 Hc. induction ops as [|o ops IH]; intros st1 Hc Hp; simpl in *.
  - rewrite (get_or_create_hit k a st1 Hc). reflexivity.
  - destruct Hp as [Hp Hps]. apply IH; [|exact Hps].
    apply run_op_keeps_entry; assumption.
Qed.

Lemma get_or_create_same_instance_witness :
  fst (get_or_create (txt "cli:direct")
         (run_ops [AddMessage 0 (txt "user") (txt "hi") []; Save 0;
                   GetOrCreate (txt "telegram:42"); Invalidate (txt "telegram:42");
                   ListSessions]
            (snd (get_or_create (txt "cli:direct") (empty_manager fixed_clock))))) =
  fst (get_or_create (txt "cli:direct") (empty_manager fixed_clock)).
Proof.
  apply (get_or_create_same_instance (empty_manager fixed_clock) (txt "cli:direct")).
  cbv [ops_preserve preserves_entry].
  split; [exact I|]. split; [intros s _ _; vm_compute; reflexivity|].
  split; [exact I|]. split; [intros H; vm_compute in H; discriminate H|].
  split; exact I.
Defined.

(** ** Malformed session files *)



(** Text that is no JSON value is one way for a line to be malformed. *)
Lemma load_line_syntax_error (acc : load_state) (raw : text) :
  py_strip raw <> [] -> loads (py_strip raw) = None ->
  load_line acc raw = Raise JSONDecodeError.
Proof.
  intros Hne Hl. unfold load_line.
  destruct (py_strip raw) as [|c line]; [congruence|]. rewrite Hl. reflexivity.
Qed.



(** ** Listing sessions *)

(** C9, failing input.  Both files yield a summary whose [updated_at] is
    [None]; the default of [x.get("updated_at", "")] never applies because
    the key is present, and comparing [None] with [None] raises. *)
Lemma list_sessions_undated_raises :
  length (session_summaries undated_files_manager) = 2%nat /\
  list_sessions undated_files_manager = Raise TypeError.
Proof. split; vm_compute; reflexivity. Qed.

Lemma text_lt_asym (s t : text) : text_lt s t = true -> text_lt t s = false.
Proof.
  revert t. induction s as [|c s IH]; intros [|d t]; simpl; try congruence.
  destruct (c <? d)%N eqn:E1; destruct (d <? c)%N eqn:E2; try congruence.
  - apply N.ltb_lt in E1, E2. lia.
  - apply IH.
Qed.

Lemma insert_desc_sorted (x : dict) (l : list dict) :
  text_keyed x -> Forall text_keyed l -> Sorted not_older l ->
  exists r, insert_desc x l = Ok r /\ r ≡ₚ x :: l /\ Sorted not_older r /\
            (forall y, HdRel not_older y l -> not_older y x -> HdRel not_older y r).
Proof.
  intros [s Hx] Hl Hs. induction l as [|y l IH]; simpl.
  - exists [x]. repeat split; auto.
  - apply Forall_cons in Hl. destruct Hl as [[t Hy] Hl].
    apply Sorted_inv in Hs. destruct Hs as [Hs Hhd].
    rewrite Hy, Hx. cbn [py_lt].
    destruct (text_lt t s) eqn:Elt.
    + exists (x :: y :: l). split; [reflexivity|]. split; [reflexivity|]. split.
      * constructor; [constructor; assumption|]. constructor.
        exists s, t. auto using text_lt_asym.
      * intros z _ Hz. constructor. exact Hz.
    + destruct (IH Hl Hs) as (r & Hr & Hperm & Hsr & Hhead). rewrite Hr.
      exists (y :: r). split; [reflexivity|]. split.
      * rewrite Hperm. apply Permutation_swap.
      * split.
        -- constructor; [exact Hsr|]. apply Hhead; [exact Hhd|].
           exists t, s. auto.
        -- intros z Hz _. apply HdRel_inv in Hz. constructor. exact Hz.
Qed.

Lemma sorted_desc_into_sorted (l acc : list dict) :
  Forall text_keyed l -> Forall text_keyed acc -> Sorted not_older acc ->
  exists r, sorted_desc_into acc l = Ok r /\ r ≡ₚ acc ++ l /\ Sorted not_older r.
Proof.
  revert acc. induction l as [|x l IH]; intros acc Hl Hacc Hs; simpl.
  - exists acc. rewrite app_nil_r. auto.
  - apply Forall_cons in Hl. destruct Hl as [Hx Hl].
    destruct (insert_desc_sorted x acc Hx Hacc Hs) as (r & Hr & Hperm & Hsr & _).
    rewrite Hr.
    destruct (IH r Hl) as (r' & Hr' & Hperm' & Hsr'); [|exact Hsr|].
    { rewrite Hperm. constructor; assumption. }
    exists r'. split; [exact Hr'|]. split; [|exact Hsr'].
    rewrite Hperm', Hperm. simpl. apply Permutation_middle.
Qed.

(** What [list_sessions] does when every summary carries a text
    [updated_at]: it returns the summaries, one per file whose stripped
    first line is a JSON object with [_type] equal to ["metadata"], in
    descending order of [updated_at]. *)
Lemma list_sessions_sorted (st : Manager) :
  Forall text_keyed (session_summaries st) ->
  exists out,
    list_sessions st = Ok out /\
    out ≡ₚ session_summaries st /\
    Sorted not_older out.
Proof.
  intros H. unfold list_sessions, sorted_desc.
  destruct (sorted_desc_into_sorted (session_summaries st) [] H) as (r & Hr & Hp & Hs);
    [constructor | constructor |].
  exists r. auto.
Qed.

(** ** Reading back what [dumps] prints *)

Local Open Scope N_scope.












Lemma parse_value_string (fuel : nat) (s : text) :
  parse_value (S fuel) (34 :: s) =
  match scan_string s with Some (t, r) => Some (JStr t, r) | None => None end.
Proof. reflexivity. Qed.

Lemma parse_value_array (fuel : nat) (s : text) :
  parse_value (S fuel) (91 :: s) =
  match skip_ws s with
  | d :: s2 =>
      if d =? 93 then Some (JArr [], s2)
      else match parse_items fuel (d :: s2) with
           | Some (items, r) => Some (JArr items, r)
           | None => None
           end
  | [] => None
  end.
Proof. reflexivity. Qed.

Lemma parse_value_object (fuel : nat) (s : text) :
  parse_value (S fuel) (123 :: s) =
  match skip_ws s with
  | d :: s2 =>
      if d =? 125 then Some (JObj [], s2)
      else match parse_pairs fuel (d :: s2) with
           | Some (pairs, r) => Some (JObj (dict_of_pairs pairs), r)
           | None => None
           end
  | [] => None
  end.
Proof. reflexivity. Qed.

Lemma parse_items_step (fuel : nat) (s : text) :
  parse_items (S fuel) s =
  match parse_value fuel s with
  | None => None
  | Some (v, r) =>
      match skip_ws r with
      | d :: r1 =>
          if d =? 44 then
            match parse_items fuel (skip_ws r1) with
            | Some (vs, r2) => Some (v :: vs, r2)
            | None => None
            end
          else if d =? 93 then Some ([v], r1)
          else None
      | [] => None
      end
  end.
Proof. reflexivity. Qed.

Lemma parse_pairs_step (fuel : nat) (s : text) :
  parse_pairs (S fuel) (34 :: s) =
  match scan_string s with
  | None => None
  | Some (k, r) =>
      match skip_ws r with
      | d :: r1 =>
          if d =? 58 then
            match parse_value fuel (skip_ws r1) with
            | None => None
            | Some (v, r2) =>
                match skip_ws r2 with
                | e :: r3 =>
                    if e =? 44 then
                      match parse_pairs fuel (skip_ws r3) with
                      | Some (kvs, r4) => Some ((k, v) :: kvs, r4)
                      | None => None
                      end
                    else if e =? 125 then Some ([(k, v)], r3)
                    else None
                | [] => None
                end
            end
          else None
      | [] => None
      end
  end.
Proof. reflexivity. Qed.





Local Close Scope N_scope.













(** ** The recursion bound of [loads] *)

Lemma skip_ws_length (s : text) : (length (skip_ws s) <= length s)%nat.
Proof.
  induction s as [|c s IH]; cbn [skip_ws]; [lia|].
  destruct (is_ws c); cbn [length]; lia.
Qed.

Lemma scan_string_length (n : nat) :
  forall s t r, (length s <= n)%nat -> scan_string s = Some (t, r) ->
                (length r < length s)%nat.
Proof.
  induction n as [|n IH]; intros s t r Hn H.
  - destruct s; [discriminate | cbn in Hn; lia].
  - destruct s as [|c s1]; [discriminate|]. cbn [scan_string] in H.
    cbn [length] in *.
    repeat match type of H with
    | context [match scan_string ?x with _ => _ end] =>
        let E := fresh "E" in
        destruct (scan_string x) as [[? ?]|] eqn:E;
        [apply IH in E; [|cbn [length] in *; lia] | try discriminate H]
    | context [match ?x with _ => _ end] => destruct x eqn:?; try discriminate H
    end;
    injection H as <- <-; cbn [length] in *; lia.
Qed.

Lemma read_uint_length (s : text) :
  (length (snd (read_uint s)) <= length s)%nat.
Proof.
  induction s as [|c s IH]; cbn [read_uint]; [cbn; lia|].
  destruct (is_digit c); [|cbn; lia].
  destruct (read_uint s) as [d r]. cbn [snd length] in *. lia.
Qed.

Lemma parse_int_length (s : text) (z : Z) (r : text) :
  parse_int s = Some (z, r) -> (length r < length s)%nat.
Proof.
  unfold parse_int. intros H.
  destruct s as [|c s']; [discriminate|].
  destruct (N.eqb c 45).
  - destruct s' as [|c' s'']; [discriminate|].
    destruct (N.eqb c' 48); [injection H as <- <-; cbn; lia|].
    destruct (is_digit c'); [|discriminate].
    pose proof (read_uint_length (c' :: s'')) as Hl.
    destruct (read_uint (c' :: s'')) as [d r']. injection H as <- <-.
    cbn [snd length] in *. lia.
  - destruct (N.eqb c 48); [injection H as <- <-; cbn; lia|].
    destruct (is_digit c) eqn:Ed; [|discriminate].
    pose proof (read_uint_length (c :: s')) as Hl.
    cbn [read_uint] in *. rewrite Ed in *.
    pose proof (read_uint_length s') as Hl'.
    destruct (read_uint s') as [d r']. injection H as <- <-.
    cbn [snd length] in *. lia.
Qed.

Lemma strip_prefix_length (p s r : text) :
  strip_prefix p s = Some r -> (length r + length p = length s)%nat.
Proof.
  revert s. induction p as [|a p IH]; intros s H; cbn [strip_prefix] in H.
  - injection H as <-. cbn. lia.
  - destruct s as [|b s]; [discriminate|].
    destruct (N.eqb a b); [|discriminate]. apply IH in H. cbn [length]. lia.
Qed.

Local Open Scope nat_scope.

Lemma parse_value_scalar (fuel : nat) (c : N) (s : text) :
  c <> 34%N -> c <> 123%N -> c <> 91%N ->
  parse_value (S fuel) (c :: s) = parse_value 1 (c :: s).
Proof.
  intros H1 H2 H3. cbn [parse_value].
  rewrite (proj2 (N.eqb_neq c 34) H1), (proj2 (N.eqb_neq c 123) H2),
    (proj2 (N.eqb_neq c 91) H3). reflexivity.
Qed.

Lemma parse_value_scalar_length (c : N) (s : text) (v : json) (r : text) :
  c <> 34%N -> c <> 123%N -> c <> 91%N ->
  parse_value 1 (c :: s) = Some (v, r) -> length r < length (c :: s).
Proof.
  intros H1 H2 H3 H. cbn [parse_value] in H.
  rewrite (proj2 (N.eqb_neq c 34) H1), (proj2 (N.eqb_neq c 123) H2),
    (proj2 (N.eqb_neq c 91) H3) in H.
  destruct (strip_prefix (txt "null") (c :: s)) as [r0|] eqn:E1.
  { injection H as <- <-. apply strip_prefix_length in E1.
    change (length (txt "null")) with 4 in E1. lia. }
  destruct (strip_prefix (txt "true") (c :: s)) as [r0|] eqn:E2.
  { injection H as <- <-. apply strip_prefix_length in E2.
    change (length (txt "true")) with 4 in E2. lia. }
  destruct (strip_prefix (txt "false") (c :: s)) as [r0|] eqn:E3.
  { injection H as <- <-. apply strip_prefix_length in E3.
    change (length (txt "false")) with 5 in E3. lia. }
  destruct (parse_int (c :: s)) as [[z r0]|] eqn:E4; [|discriminate].
  injection H as <- <-. exact (parse_int_length _ _ _ E4).
Qed.

Lemma skip_ws_cons_length (s : text) (d : N) (s2 : text) :
  skip_ws s = d :: s2 -> S (length s2) <= length s.
Proof.
  intros E. pose proof (skip_ws_length s) as H. rewrite E in H. exact H.
Qed.

Lemma parse_length (fuel : nat) :
  (forall s v r, parse_value fuel s = Some (v, r) -> length r < length s) /\
  (forall s vs r, parse_items fuel s = Some (vs, r) -> length r < length s) /\
  (forall s kvs r, parse_pairs fuel s = Some (kvs, r) -> length r < length s).
Proof.
  induction fuel as [|fuel (IHv & IHi & IHp)].
  - repeat split; intros; discriminate.
  - split; [|split].
    + intros s v r H. destruct s as [|c s1]; [discriminate|].
      destruct (N.eqb_spec c 34) as [->|H34].
      { rewrite parse_value_string in H.
        destruct (scan_string s1) as [[t r0]|] eqn:E; [|discriminate].
        injection H as <- <-. apply (scan_string_length (length s1)) in E; [|lia].
        cbn [length]. lia. }
      destruct (N.eqb_spec c 123) as [->|H123].
      { rewrite parse_value_object in H.
        destruct (skip_ws s1) as [|d s2] eqn:Ews; [discriminate|].
        apply skip_ws_cons_length in Ews.
        destruct (N.eqb d 125); [injection H as <- <-; cbn [length]; lia|].
        destruct (parse_pairs fuel (d :: s2)) as [[pairs r0]|] eqn:E; [|discriminate].
        injection H as <- <-. apply IHp in E. cbn [length] in *. lia. }
      destruct (N.eqb_spec c 91) as [->|H91].
      { rewrite parse_value_array in H.
        destruct (skip_ws s1) as [|d s2] eqn:Ews; [discriminate|].
        apply skip_ws_cons_length in Ews.
        destruct (N.eqb d 93); [injection H as <- <-; cbn [length]; lia|].
        destruct (parse_items fuel (d :: s2)) as [[items r0]|] eqn:E; [|discriminate].
        injection H as <- <-. apply IHi in E. cbn [length] in *. lia. }
      rewrite parse_value_scalar in H by assumption.
      apply parse_value_scalar_length in H; assumption.
    + intros s vs r H. rewrite parse_items_step in H.
      destruct (parse_value fuel s) as [[v r0]|] eqn:Ev; [|discriminate].
      apply IHv in Ev.
      destruct (skip_ws r0) as [|d r1] eqn:Ews; [discriminate|].
      apply skip_ws_cons_length in Ews.
      destruct (N.eqb d 44).
      * destruct (parse_items fuel (skip_ws r1)) as [[vs' r2]|] eqn:Ei; [|discriminate].
        injection H as <- <-. apply IHi in Ei.
        pose proof (skip_ws_length r1). lia.
      * destruct (N.eqb d 93); [|discriminate]. injection H as <- <-. lia.
    + intros s kvs r H. destruct s as [|c s1]; [discriminate|].
      destruct (N.eqb_spec c 34) as [->|H34].
      2:{ cbn [parse_pairs] in H. rewrite (proj2 (N.eqb_neq c 34) H34) in H.
          discriminate. }
      rewrite parse_pairs_step in H.
      destruct (scan_string s1) as [[k r0]|] eqn:Es; [|discriminate].
      apply (scan_string_length (length s1)) in Es; [|lia].
      destruct (skip_ws r0) as [|d r1] eqn:Ews; [discriminate|].
      apply skip_ws_cons_length in Ews.
      destruct (N.eqb d 58); [|discriminate].
      destruct (parse_value fuel (skip_ws r1)) as [[v r2]|] eqn:Ev; [|discriminate].
      apply IHv in Ev. pose proof (skip_ws_length r1).
      destruct (skip_ws r2) as [|e r3] eqn:Ews2; [discriminate|].
      apply skip_ws_cons_length in Ews2.
      destruct (N.eqb e 44).
      * destruct (parse_pairs fuel (skip_ws r3)) as [[kvs' r4]|] eqn:Ep; [|discriminate].
        injection H as <- <-. apply IHp in Ep.
        pose proof (skip_ws_length r3). cbn [length]. lia.
      * destruct (N.eqb e 125); [|discriminate]. injection H as <- <-.
        cbn [length]. lia.
Qed.

(** A successful parse succeeds with any bound that is at least the number
    of characters it consumed. *)
Lemma parse_fuel (fuel : nat) :
  (forall s v r, parse_value fuel s = Some (v, r) ->
     forall fuel', length s - length r <= fuel' -> parse_value fuel' s = Some (v, r)) /\
  (forall s vs r, parse_items fuel s = Some (vs, r) ->
     forall fuel', length s - length r <= fuel' -> parse_items fuel' s = Some (vs, r)) /\
  (forall s kvs r, parse_pairs fuel s = Some (kvs, r) ->
     forall fuel', length s - length r <= fuel' -> parse_pairs fuel' s = Some (kvs, r)).
Proof.
  induction fuel as [|fuel (IHv & IHi & IHp)].
  - repeat split; intros; discriminate.
  - destruct (parse_length fuel) as (Lv & Li & Lp).
    destruct (parse_length (S fuel)) as (Lv' & Li' & Lp').
    split; [|split].
    + intros s v r H fuel' Hf. pose proof (Lv' _ _ _ H) as Hlen.
      destruct fuel' as [|f']; [lia|].
      destruct s as [|c s1]; [discriminate|]. cbn [length] in *.
      destruct (N.eqb_spec c 34) as [->|H34]; [exact H|].
      destruct (N.eqb_spec c 123) as [->|H123].
      { rewrite parse_value_object in H |- *.
        destruct (skip_ws s1) as [|d s2] eqn:Ews; [discriminate|].
        apply skip_ws_cons_length in Ews.
        destruct (N.eqb d 125); [exact H|].
        destruct (parse_pairs fuel (d :: s2)) as [[pairs r0]|] eqn:E; [|discriminate].
        injection H as <- <-.
        rewrite (IHp _ _ _ E f'); [reflexivity | cbn [length]; lia]. }
      destruct (N.eqb_spec c 91) as [->|H91].
      { rewrite parse_value_array in H |- *.
        destruct (skip_ws s1) as [|d s2] eqn:Ews; [discriminate|].
        apply skip_ws_cons_length in Ews.
        destruct (N.eqb d 93); [exact H|].
        destruct (parse_items fuel (d :: s2)) as [[items r0]|] eqn:E; [|discriminate].
        injection H as <- <-.
        rewrite (IHi _ _ _ E f'); [reflexivity | cbn [length]; lia]. }
      rewrite parse_value_scalar in H |- * by assumption. exact H.
    + intros s vs r H fuel' Hf. pose proof (Li' _ _ _ H) as Hlen.
      destruct fuel' as [|f']; [lia|].
      rewrite parse_items_step in H |- *.
      destruct (parse_value fuel s) as [[v r0]|] eqn:Ev; [|discriminate].
      pose proof (Lv _ _ _ Ev) as Hv.
      destruct (skip_ws r0) as [|d r1] eqn:Ews; [discriminate|].
      pose proof (skip_ws_cons_length _ _ _ Ews) as Hws.
      destruct (N.eqb d 44) eqn:E44.
      * destruct (parse_items fuel (skip_ws r1)) as [[vs' r2]|] eqn:Ei; [|discriminate].
        injection H as <- <-. pose proof (Li _ _ _ Ei) as Hi.
        pose proof (skip_ws_length r1).
        rewrite (IHv _ _ _ Ev f') by lia. rewrite Ews, E44.
        rewrite (IHi _ _ _ Ei f') by lia. reflexivity.
      * destruct (N.eqb d 93) eqn:E93; [|discriminate]. injection H as <- <-.
        rewrite (IHv _ _ _ Ev f') by lia. rewrite Ews, E44, E93. reflexivity.
    + intros s kvs r H fuel' Hf. pose proof (Lp' _ _ _ H) as Hlen.
      destruct fuel' as [|f']; [lia|].
      destruct s as [|c s1]; [discriminate|].
      destruct (N.eqb_spec c 34) as [->|H34].
      2:{ cbn [parse_pairs] in H. rewrite (proj2 (N.eqb_neq c 34) H34) in H.
          discriminate. }
      rewrite parse_pairs_step in H |- *.
      destruct (scan_string s1) as [[k r0]|] eqn:Es; [|discriminate].
      pose proof (scan_string_length (length s1) s1 _ _ (Nat.le_refl _) Es) as Hs.
      destruct (skip_ws r0) as [|d r1] eqn:Ews; [discriminate|].
      pose proof (skip_ws_cons_length _ _ _ Ews) as Hws.
      destruct (N.eqb d 58); [|discriminate].
      destruct (parse_value fuel (skip_ws r1)) as [[v r2]|] eqn:Ev; [|discriminate].
      pose proof (Lv _ _ _ Ev) as Hv. pose proof (skip_ws_length r1).
      destruct (skip_ws r2) as [|e r3] eqn:Ews2; [discriminate|].
      pose proof (skip_ws_cons_length _ _ _ Ews2) as Hws2.
      cbn [length] in *.
      destruct (N.eqb e 44) eqn:E44.
      * destruct (parse_pairs fuel (skip_ws r3)) as [[kvs' r4]|] eqn:Ep; [|discriminate].
        injection H as <- <-. pose proof (Lp _ _ _ Ep) as Hp.
        pose proof (skip_ws_length r3).
        rewrite (IHv _ _ _ Ev f') by lia. rewrite Ews2, E44.
        rewrite (IHp _ _ _ Ep f') by lia. reflexivity.
      * destruct (N.eqb e 125) eqn:E125; [|discriminate]. injection H as <- <-.
        rewrite (IHv _ _ _ Ev f') by lia. rewrite Ews2, E44, E125. reflexivity.
Qed.

(** The bound [loads] passes to the scanner never makes it fail: text that
    is read as a value under some bound is read by [loads]. *)
Lemma loads_fuel_enough (fuel : nat) (s : text) (v : json) (r : text) :
  parse_value fuel (skip_ws s) = Some (v, r) -> skip_ws r = [] ->
  loads s = Some v.
Proof.
  intros H Hr. unfold loads.
  rewrite (proj1 (parse_fuel fuel) _ _ _ H (S (length s))), Hr; [reflexivity|].
  pose proof (skip_ws_length s). lia.
Qed.

Local Close Scope nat_scope.

(** ** The text of a saved file *)

























(** ** Dates read from a file *)





(** ** Reading back a saved session *)
















(** ** Sessions built by [add_message] *)











(** ** Round trip through the session file *)




(** ** Values read from a file *)











(** ** Text without [\u] *)

Local Open Scope N_scope.













Local Close Scope N_scope.


(** ** Normalising load *)







